(** * ASO_Wise: the listing validator and the agent pipeline of
      [aso_wise/agent.py], as a shallow embedding.

    Python values are modelled as follows.
    - [str]: a [string] whose characters are the code points U+0000..U+00FF
      (one [ascii] per code point), so that [len] is [String.length] and
      [str.lower] and [str.split] act as Python does on that range.
    - [int]: [Z].
    - [list]: [list], with [append] adding at the end.
    - the [dict] handed to [json.dumps]: a [json] object, an association
      list in insertion order.
    - [set(words)]: a [gset string]. *)

From Stdlib Require Import ZArith Lia List Ascii String DecimalString DecimalZ.
From stdpp Require Import base decidable list strings gmap.

Local Open Scope string_scope.
Local Open Scope Z_scope.

(** ** Python string primitives *)
Module Py.

(** [len(s)]. *)
Definition len (s : string) : Z := Z.of_nat (String.length s).

(** [len(l)] on a list. *)
Definition llen {A} (l : list A) : Z := Z.of_nat (List.length l).

(** [str(n)] for an [int], as an f-string field renders it. *)
Definition str_of_int (n : Z) : string := NilZero.string_of_int (Z.to_int n).

(** One character of [str.lower]: A..Z and the upper-case letters of
    U+00C0..U+00DE (all but the multiplication sign U+00D7) move up by 32. *)
Definition lower_char (c : ascii) : ascii :=
  let n := N_of_ascii c in
  if (((65 <=? n) && (n <=? 90)) ||
      ((192 <=? n) && (n <=? 222) && negb (n =? 215)))%N
  then ascii_of_N (n + 32) else c.

(** [s.lower()]. *)
Fixpoint lower (s : string) : string :=
  match s with
  | EmptyString => EmptyString
  | String c s' => String (lower_char c) (lower s')
  end.

(** [c.isspace()]: tab, line feed, vertical tab, form feed, carriage
    return, the four separators U+001C..U+001F, space, next line U+0085
    and no-break space U+00A0. *)
Definition isspace (c : ascii) : bool :=
  let n := N_of_ascii c in
  (((9 <=? n) && (n <=? 13)) || ((28 <=? n) && (n <=? 32)) ||
   (n =? 133) || (n =? 160))%N.

(** The scan of [s.split()] with no separator: [cur] is the word being
    read; a whitespace character closes it, runs of whitespace produce no
    empty word. *)
Fixpoint split_from (cur : string) (s : string) : list string :=
  match s with
  | EmptyString => if String.eqb cur EmptyString then [] else [cur]
  | String c s' =>
      if isspace c
      then (if String.eqb cur EmptyString then split_from EmptyString s'
            else cur :: split_from EmptyString s')
      else split_from (cur ++ String c EmptyString) s'
  end.

(** [s.split()]. *)
Definition split (s : string) : list string := split_from EmptyString s.

(** [s.startswith(t)]. *)
Fixpoint startswith (t s : string) : bool :=
  match t, s with
  | EmptyString, _ => true
  | String a t', String b s' => Ascii.eqb a b && startswith t' s'
  | String _ _, EmptyString => false
  end.

(** [t in s] on strings: [t] occurs in [s] at some position. *)
Fixpoint contains (t s : string) : bool :=
  startswith t s ||
  match s with
  | EmptyString => false
  | String _ s' => contains t s'
  end.

(** [x in l] on a list of strings. *)
Definition mem (x : string) (l : list string) : bool :=
  existsb (String.eqb x) l.

(** [len(set(words))]. *)
Definition len_set (words : list string) : Z :=
  Z.of_nat (size (list_to_set words : gset string)).

(** A string of [n] copies of [c], to build inputs of a given length. *)
Fixpoint replicate_char (n : nat) (c : ascii) : string :=
  match n with
  | O => EmptyString
  | S n' => String c (replicate_char n' c)
  end.

End Py.

(** ** [json.dumps(obj, indent=2)] *)
Module Json.
Import Py.

(** The values the validator serialises. A [JDict] keeps its keys in
    insertion order, as a Python [dict] does. *)
#[warnings="-register-all"]
Inductive json : Type :=
| JBool (b : bool)
| JInt (n : Z)
| JStr (s : string)
| JList (items : list json)
| JDict (fields : list (string * json)).

(** [d.get(k)] on a decoded object. *)
Fixpoint assoc (k : string) (fields : list (string * json)) : option json :=
  match fields with
  | [] => None
  | (k', v) :: rest => if String.eqb k k' then Some v else assoc k rest
  end.

Definition get (k : string) (v : json) : option json :=
  match v with
  | JDict fields => assoc k fields
  | _ => None
  end.

(** Readers for the fields of a decoded object: a list of strings and a
    boolean. *)
Definition as_strings (v : option json) : list string :=
  match v with
  | Some (JList items) =>
      omap (fun j => match j with JStr s => Some s | _ => None end) items
  | _ => []
  end.

Definition as_bool (v : option json) : option bool :=
  match v with
  | Some (JBool b) => Some b
  | _ => None
  end.

Definition as_int (v : option json) : option Z :=
  match v with
  | Some (JInt n) => Some n
  | _ => None
  end.

Definition dquote : string := String "034" EmptyString.
Definition backslash : string := String "092" EmptyString.
Definition newline : string := String "010" EmptyString.

Definition hex_digit (n : N) : ascii :=
  if (n <? 10)%N then ascii_of_N (48 + n) else ascii_of_N (87 + n).

(** One character inside a string literal, with [ensure_ascii] on: the
    quote and the backslash are escaped, the five short escapes are used,
    and every other character outside U+0020..U+007E is written as a
    four-digit [\u] escape. *)
Definition escape_char (c : ascii) : string :=
  let n := N_of_ascii c in
  if (n =? 34)%N then backslash ++ dquote
  else if (n =? 92)%N then backslash ++ backslash
  else if (n =? 10)%N then backslash ++ "n"
  else if (n =? 13)%N then backslash ++ "r"
  else if (n =? 9)%N then backslash ++ "t"
  else if (n =? 8)%N then backslash ++ "b"
  else if (n =? 12)%N then backslash ++ "f"
  else if ((32 <=? n) && (n <=? 126))%N then String c EmptyString
  else backslash ++ "u00" ++
       String (hex_digit (n / 16)) (String (hex_digit (n mod 16)) EmptyString).

Fixpoint escape (s : string) : string :=
  match s with
  | EmptyString => EmptyString
  | String c s' => escape_char c ++ escape s'
  end.

Definition quote (s : string) : string := dquote ++ escape s ++ dquote.

(** The line break and the indentation of nesting level [lvl]. *)
Definition break (indent lvl : nat) : string :=
  newline ++ replicate_char (indent * lvl) " ".

Fixpoint join (sep : string) (parts : list string) : string :=
  match parts with
  | [] => EmptyString
  | [p] => p
  | p :: rest => p ++ sep ++ join sep rest
  end.

Fixpoint render (indent lvl : nat) (v : json) : string :=
  match v with
  | JBool true => "true"
  | JBool false => "false"
  | JInt n => str_of_int n
  | JStr s => quote s
  | JList [] => "[]"
  | JList items =>
      "[" ++ break indent (S lvl)
          ++ join ("," ++ break indent (S lvl))
                  (List.map (render indent (S lvl)) items)
          ++ break indent lvl ++ "]"
  | JDict [] => "{}"
  | JDict fields =>
      "{" ++ break indent (S lvl)
          ++ join ("," ++ break indent (S lvl))
                  (List.map (fun kv => quote (fst kv) ++ ": "
                                       ++ render indent (S lvl) (snd kv))
                            fields)
          ++ break indent lvl ++ "}"
  end.

Definition dumps (v : json) (indent : nat) : string := render indent 0 v.

End Json.

(** ** The validator *)
Module Validator.
Import Py.

(** The messages, as the f-strings build them. *)
Definition ios_title_msg (n : Z) : string :=
  "iOS title too long: " ++ str_of_int n ++ " chars (max 30)".

Definition android_title_msg (n : Z) : string :=
  "Android title long: " ++ str_of_int n ++ " chars (recommended max 30)".

Definition repeated_words_msg : string :=
  "Title has repeated words (possible keyword stuffing)".

Definition discouraged_msg (term : string) : string :=
  "Discouraged term in title: '" ++ term ++ "'".

Definition description_short_msg (n : Z) : string :=
  "Description short: " ++ str_of_int n ++ " chars (recommended 500+)".

Definition description_long_msg (n : Z) : string :=
  "Description too long: " ++ str_of_int n ++ " chars (max 4000)".

Definition prohibited : list string :=
  ["#1"; "best"; "top rated"; "free download"].

Definition recommendations : list string :=
  ["Use natural language";
   "Focus on user benefits";
   "Include clear call-to-action";
   "Use bullet points for readability"].

(** The two lists the function appends to. *)
Record findings := Findings { issues : list string; warnings : list string }.

Definition add_issue (m : string) (f : findings) : findings :=
  Findings (issues f ++ [m]) (warnings f).

Definition add_warning (m : string) (f : findings) : findings :=
  Findings (issues f) (warnings f ++ [m]).

(** The body of [validate_app_store_content] up to the [return]: the
    statements in source order, each one updating the two lists. *)
Definition check (title description store : string) : findings :=
  let f := Findings [] [] in
  let f := if mem store ["ios"; "both"] && (30 <? len title)
           then add_issue (ios_title_msg (len title)) f else f in
  let f := if mem store ["android"; "both"] && (50 <? len title)
           then add_warning (android_title_msg (len title)) f else f in
  let words := split (lower title) in
  let f := if negb (llen words =? len_set words)
           then add_warning repeated_words_msg f else f in
  let f := fold_left
             (fun f term =>
                if contains term (lower title)
                then add_warning (discouraged_msg term) f else f)
             prohibited f in
  let f := if len description <? 200
           then add_warning (description_short_msg (len description)) f
           else f in
  let f := if 4000 <? len description
           then add_issue (description_long_msg (len description)) f
           else f in
  f.

(** The [dict] built in the [return] statement. *)
Definition result (title description store : string) : Json.json :=
  let f := check title description store in
  Json.JDict
    [("valid", Json.JBool (llen (issues f) =? 0));
     ("issues", Json.JList (List.map Json.JStr (issues f)));
     ("warnings", Json.JList (List.map Json.JStr (warnings f)));
     ("title_length", Json.JInt (len title));
     ("description_length", Json.JInt (len description));
     ("recommendations", Json.JList (List.map Json.JStr recommendations))].

(** [validate_app_store_content(title, description, store)]: the JSON
    text of [result]. *)
Definition validate_app_store_content
    (title description store : string) : string :=
  Json.dumps (result title description store) 2.

(** The fields of a result, as a caller reads them. *)
Definition valid_of (r : Json.json) : option bool :=
  Json.as_bool (Json.get "valid" r).

Definition issues_of (r : Json.json) : list string :=
  Json.as_strings (Json.get "issues" r).

Definition warnings_of (r : Json.json) : list string :=
  Json.as_strings (Json.get "warnings" r).

(** The default of the [store] argument. *)
Definition default_store : string := "both".

End Validator.

(** ** The agents and the pipeline *)
Module Pipeline.

(** [types.HttpRetryOptions]. *)
Record HttpRetryOptions := {
  attempts : Z;
  exp_base : Z;
  initial_delay : Z;
  http_status_codes : list Z
}.

Definition retry_config : HttpRetryOptions :=
  {| attempts := 5;
     exp_base := 7;
     initial_delay := 1;
     http_status_codes := [429; 500; 502; 503; 504] |}.

(** [Gemini(model=..., retry_options=...)]. *)
Record Gemini := {
  gemini_model : string;
  retry_options : HttpRetryOptions
}.

(** The callables handed to an agent as tools. *)
Inductive Tool := google_search | validate_app_store_content.

(** [Agent(name, model, instruction, tools, output_key)]; an agent built
    without [tools] has none, one built without [output_key] has [None]. *)
Record Agent := {
  name : string;
  model : Gemini;
  instruction : string;
  tools : list Tool;
  output_key : option string
}.

(** [SequentialAgent(name, sub_agents)]: the sub-agents run one after the
    other, in list order. *)
Record SequentialAgent := {
  seq_name : string;
  sub_agents : list Agent
}.

Definition keyword_researcher_instruction : string :=
  "You are an ASO keyword researcher. Your task:

1. Analyze the app description and category
2. Generate 15-20 relevant keyword ideas
3. Use google_search to research each keyword:
   - Search for "
  ++ Json.dquote ++ "keyword app"
  ++ Json.dquote ++ " to see competition
   - Search for "
  ++ Json.dquote ++ "keyword app store"
  ++ Json.dquote ++ " to see existing apps
   - Analyze search results to gauge popularity and competition

4. Categorize keywords:
   - Primary (5-7): High relevance, good search presence
   - Secondary (5-8): Medium relevance, moderate competition  
   - Long-tail (5-8): Specific phrases, lower competition

Return a structured analysis with keyword recommendations.".

Definition competitor_analyst_instruction : string :=
  "You are a competitive analysis expert for app stores. Your task:

1. Use google_search to find top competitor apps:
   - Search "
  ++ Json.dquote ++ "best [category] apps"
  ++ Json.dquote ++ "
   - Search "
  ++ Json.dquote ++ "top [category] apps ios/android"
  ++ Json.dquote ++ "
   - Search for specific app types mentioned in the description

2. Analyze search results to identify:
   - Common keywords in top app titles
   - Popular features mentioned in descriptions
   - Patterns in successful apps
   - Gaps and opportunities

3. Provide insights:
   - What works in this category
   - How to differentiate
   - Unique positioning opportunities

Return a competitive analysis with actionable recommendations.".

Definition content_writer_instruction : string :=
  "You are an ASO copywriter. Your task:

1. Review keyword research and competitive analysis from previous agents
2. Create 3 variants of:
   - Title (max 30 chars for iOS, 50 for Android)
   - Subtitle (short value proposition)
   - Description (500-1000 words, keyword-optimized)
   - Backend keywords (comma-separated)

3. Writing principles:
   - Lead with benefits, not features
   - Natural keyword integration
   - Clear call-to-action
   - Scannable format (bullets, short paragraphs)

4. Use validate_app_store_content to check each variant

Return 3 complete variants with strategy explanations.

**Keyword Research:**
{keyword_research}

**Competitor Analysis:**
{competitor_analysis}".

Definition aso_aggregator_instruction : string :=
  "You are the ASO_Wise final advisor. Review all the research and content variants to provide a comprehensive recommendation.

**Keyword Research:**
{keyword_research}

**Competitor Analysis:**
{competitor_analysis}

**Content Variants:**
{content_variants}

Your task:
1. Analyze all 3 content variants
2. Evaluate each variant based on:
   - Keyword optimization
   - Competitive positioning
   - App store guideline compliance
   - User appeal and clarity

3. Provide a clear recommendation:
   - Which variant is best and why
   - Key strengths of the recommended variant
   - Any final tweaks or suggestions
   - Summary of the overall ASO strategy

4. Present the final recommended listing in a clean, ready-to-use format

Be conversational and explain your reasoning. Help the user understand why this approach will work.".

Definition flash_lite : Gemini :=
  {| gemini_model := "gemini-2.5-flash-lite"; retry_options := retry_config |}.

Definition keyword_research_agent : Agent :=
  {| name := "keyword_researcher";
     model := flash_lite;
     instruction := keyword_researcher_instruction;
     tools := [google_search];
     output_key := Some "keyword_research" |}.

Definition competitor_analysis_agent : Agent :=
  {| name := "competitor_analyst";
     model := flash_lite;
     instruction := competitor_analyst_instruction;
     tools := [google_search];
     output_key := Some "competitor_analysis" |}.

Definition content_writer_agent : Agent :=
  {| name := "content_writer";
     model := flash_lite;
     instruction := content_writer_instruction;
     tools := [validate_app_store_content];
     output_key := Some "content_variants" |}.

Definition aggregator_agent : Agent :=
  {| name := "aso_aggregator";
     model := flash_lite;
     instruction := aso_aggregator_instruction;
     tools := [];
     output_key := None |}.

Definition root_agent : SequentialAgent :=
  {| seq_name := "aso_wise";
     sub_agents := [keyword_research_agent;
                    competitor_analysis_agent;
                    content_writer_agent;
                    aggregator_agent] |}.

(** The context keys an instruction template refers to: the names written
    between braces, in order of appearance. [cur] is the name being read
    after an opening brace, if any. *)
Fixpoint placeholders_from (cur : option string) (s : string) : list string :=
  match s with
  | EmptyString => []
  | String c s' =>
      match cur with
      | None =>
          if Ascii.eqb c "{" then placeholders_from (Some EmptyString) s'
          else placeholders_from None s'
      | Some k =>
          if Ascii.eqb c "}" then k :: placeholders_from None s'
          else if Ascii.eqb c "{" then placeholders_from (Some EmptyString) s'
          else placeholders_from (Some (k ++ String c EmptyString)) s'
      end
  end.

Definition placeholders (s : string) : list string :=
  placeholders_from None s.

(** The keys written by the stages before position [i]. *)
Definition keys_before (stages : list Agent) (i : nat) : list string :=
  omap output_key (take i stages).

End Pipeline.

(** ** Executable checks used to state further properties *)
Module Checks.
Import Py Json Pipeline.

(** Every character of [s] passes the test [p]. *)
Fixpoint all_chars (p : ascii -> bool) (s : string) : bool :=
  match s with
  | EmptyString => true
  | String c s' => p c && all_chars p s'
  end.

(** A character of 7-bit printable ASCII (U+0020..U+007E), or the line
    feed that [indent] inserts. *)
Definition plain_char (c : ascii) : bool :=
  let n := N_of_ascii c in
  (((32 <=? n) && (n <=? 126)) || (n =? 10))%N.

(** The name under which a tool is offered to the model: the name of the
    Python function, or of the search tool object. *)
Definition tool_name (t : Tool) : string :=
  match t with
  | google_search => "google_search"
  | validate_app_store_content => "validate_app_store_content"
  end.

Definition all_tools : list Tool := [google_search; validate_app_store_content].

(** The keys the stages after position [i] refer to. *)
Definition keys_read_after (stages : list Agent) (i : nat) : list string :=
  List.concat (List.map (fun a => placeholders (instruction a))
                        (drop (S i) stages)).

(** Induction on a JSON value that reaches the items of a list and the
    values of an object. *)
Fixpoint json_nested_ind (P : json -> Prop)
    (Hbool : forall b, P (JBool b))
    (Hint : forall n, P (JInt n))
    (Hstr : forall s, P (JStr s))
    (Hlist : forall items, Forall P items -> P (JList items))
    (Hdict : forall fields,
        Forall (fun kv => P (snd kv)) fields -> P (JDict fields))
    (v : json) {struct v} : P v :=
  match v with
  | JBool b => Hbool b
  | JInt n => Hint n
  | JStr s => Hstr s
  | JList items =>
      Hlist items
        ((fix go (l : list json) : Forall P l :=
            match l with
            | [] => @List.Forall_nil _ P
            | x :: l' =>
                @List.Forall_cons _ P x l'
                  (json_nested_ind P Hbool Hint Hstr Hlist Hdict x) (go l')
            end) items)
  | JDict fields =>
      Hdict fields
        ((fix go (l : list (string * json))
            : Forall (fun kv => P (snd kv)) l :=
            match l with
            | [] => @List.Forall_nil _ (fun kv => P (snd kv))
            | kv :: l' =>
                @List.Forall_cons _ (fun kv => P (snd kv)) kv l'
                  (json_nested_ind P Hbool Hint Hstr Hlist Hdict (snd kv))
                  (go l')
            end) fields)
  end.

(** Text of printable ASCII and line feeds only. *)
Definition plain (s : string) : Prop := all_chars plain_char s = true.

End Checks.

(** * Properties *)

(** ** Facts about the string primitives *)
Module PyFacts.
Import Py.

Lemma append_nil (b : string) : EmptyString ++ b = b.
Proof. reflexivity. Qed.

Lemma append_cons (c : ascii) (a b : string) :
  String c a ++ b = String c (a ++ b).
Proof. reflexivity. Qed.

(** [simpl] leaves string concatenation alone; these two equations unfold
    it one character at a time. *)
Ltac str_simpl := repeat (rewrite ?append_nil, ?append_cons in *; simpl in *).

Lemma len_nonneg (s : string) : 0 <= len s.
Proof. unfold len. lia. Qed.

Lemma len_app (a b : string) : len (a ++ b) = len a + len b.
Proof.
  unfold len. induction a as [|c a IH]; str_simpl; lia.
Qed.

Lemma len_replicate_char (n : nat) (c : ascii) :
  len (replicate_char n c) = Z.of_nat n.
Proof.
  unfold len. f_equal. induction n as [|n IH]; simpl; congruence.
Qed.

Lemma lower_app (a b : string) : lower (a ++ b) = lower a ++ lower b.
Proof. induction a as [|c a IH]; str_simpl; congruence. Qed.

Lemma lower_length (s : string) : String.length (lower s) = String.length s.
Proof. induction s as [|c s IH]; simpl; congruence. Qed.

(** A cut of [lower s] is the image of a cut of [s]. *)
Lemma lower_cut (x y s : string) :
  lower s = x ++ y ->
  exists s1 s2, s = s1 ++ s2 /\ lower s1 = x /\ lower s2 = y.
Proof.
  revert s. induction x as [|c x IH]; intros s H.
  - exists EmptyString, s. auto.
  - destruct s as [|d s]; str_simpl; [discriminate|].
    injection H as Hc Hs. destruct (IH _ Hs) as (s1 & s2 & -> & H1 & H2).
    exists (String d s1), s2. str_simpl. rewrite Hc, H1. auto.
Qed.

Lemma startswith_spec (t s : string) :
  startswith t s = true <-> exists b, s = t ++ b.
Proof.
  revert s. induction t as [|a t IH]; intros s; simpl.
  - split; eauto.
  - destruct s as [|b s].
    + split; [discriminate | intros [? ?]; str_simpl; discriminate].
    + rewrite andb_true_iff, IH. split.
      * intros [Hab [r ->]]. apply Ascii.eqb_eq in Hab as ->. eauto.
      * intros [r Hr]. str_simpl. injection Hr as -> ->. split; eauto.
        apply Ascii.eqb_refl.
Qed.

(** [t in s] holds exactly when [s] is [a ++ t ++ b] for some [a], [b]. *)
Lemma contains_spec (t s : string) :
  contains t s = true <-> exists a b, s = a ++ t ++ b.
Proof.
  induction s as [|c s IH]; simpl; rewrite orb_true_iff, startswith_spec.
  - split.
    + intros [[b Hb]|]; [|discriminate]. exists EmptyString, b. exact Hb.
    + intros ([|? a] & b & H); [left; eauto | str_simpl; discriminate].
  - rewrite IH. split.
    + intros [[b Hb]|(a & b & ->)].
      * exists EmptyString, b. exact Hb.
      * exists (String c a), b. reflexivity.
    + intros ([|d a] & b & H).
      * left. eauto.
      * right. str_simpl. injection H as _ ->. eauto.
Qed.

(** [t in s.lower()] holds exactly when some stretch of [s] lowers to [t]. *)
Lemma contains_lower_spec (t s : string) :
  contains t (lower s) = true <->
  exists a u b, s = a ++ u ++ b /\ lower u = t.
Proof.
  rewrite contains_spec. split.
  - intros (a' & b' & H).
    destruct (lower_cut _ _ _ H) as (a & r & -> & _ & Hr).
    destruct (lower_cut _ _ _ Hr) as (u & b & -> & Hu & _).
    eauto.
  - intros (a & u & b & -> & <-). rewrite !lower_app. eauto.
Qed.

Lemma append_inv_tail (a b c : string) : a ++ c = b ++ c -> a = b.
Proof.
  revert b. induction a as [|x a IH]; intros [|y b] H.
  - reflexivity.
  - apply (f_equal len) in H. rewrite !len_app in H.
    unfold len in H. simpl in H. lia.
  - apply (f_equal len) in H. rewrite !len_app in H.
    unfold len in H. simpl in H. lia.
  - rewrite !append_cons in H. injection H as -> H. f_equal. auto.
Qed.

Lemma append_inv_head (a b c : string) : a ++ b = a ++ c -> b = c.
Proof.
  induction a as [|x a IH]; intros H; str_simpl; [exact H|].
  injection H as H. auto.
Qed.

(** A list with a repeated entry: the same value at two positions. *)
Lemma not_NoDup_repeats (l : list string) :
  ~ NoDup l <->
  exists i j w, (i < j)%nat /\ l !! i = Some w /\ l !! j = Some w.
Proof.
  split.
  - induction l as [|x l IH]; intros H.
    + destruct H. constructor.
    + destruct (decide (x ∈ l)) as [Hin|Hnin].
      * apply list_elem_of_lookup in Hin as [j Hj].
        exists 0%nat, (S j), x. split; [lia|]. split; [reflexivity|exact Hj].
      * destruct IH as (i & j & w & Hij & Hi & Hj).
        { intros Hnd. apply H. constructor; assumption. }
        exists (S i), (S j), w. split; [lia|]. split; assumption.
  - intros (i & j & w & Hij & Hi & Hj) Hnd.
    pose proof (proj1 (NoDup_alt l) Hnd i j w Hi Hj). lia.
Qed.

Lemma size_list_to_set_le (l : list string) :
  (size (list_to_set l : gset string) <= List.length l)%nat.
Proof.
  induction l as [|x l IH].
  - rewrite list_to_set_nil, size_empty. simpl. lia.
  - rewrite list_to_set_cons, size_union_alt, size_singleton. simpl.
    assert (size (list_to_set l ∖ {[x]} : gset string)
            <= size (list_to_set l : gset string))%nat as Hsub.
    { apply subseteq_size, subseteq_difference_l. reflexivity. }
    lia.
Qed.

(** [len(words) == len(set(words))] holds exactly when no word repeats. *)
Lemma len_set_NoDup (words : list string) :
  llen words = len_set words <-> NoDup words.
Proof.
  unfold llen, len_set. split.
  - intros H. apply Nat2Z.inj in H.
    induction words as [|x l IH]; [constructor|].
    rewrite list_to_set_cons in H. simpl in H.
    pose proof (size_list_to_set_le l) as Hle.
    destruct (decide (x ∈ l)) as [Hin|Hnin].
    + exfalso.
      assert (({[x]} ∪ list_to_set l : gset string) = list_to_set l) as E.
      { apply subseteq_union_1_L, singleton_subseteq_l, elem_of_list_to_set.
        exact Hin. }
      rewrite E in H. lia.
    + constructor; [exact Hnin|]. apply IH.
      rewrite size_union, size_singleton in H; [lia|].
      apply disjoint_singleton_l. rewrite elem_of_list_to_set. exact Hnin.
  - intros H. f_equal. symmetry. apply size_list_to_set, H.
Qed.

Lemma mem_spec (x : string) (l : list string) :
  mem x l = true <-> x ∈ l.
Proof.
  unfold mem. rewrite existsb_exists, list_elem_of_In. split.
  - intros (y & Hy & E). apply String.eqb_eq in E as ->. exact Hy.
  - intros H. exists x. split; [exact H | apply String.eqb_refl].
Qed.

(** The primitives on a few inputs. *)
Example split_lower_example :
  split (lower "  Hello   World foo ") = ["hello"; "world"; "foo"].
Proof. reflexivity. Qed.

Example split_tab_newline_example :
  split (String "009" ("a" ++ String "010" "B c")) = ["a"; "B"; "c"].
Proof. reflexivity. Qed.

Example contains_example :
  contains "top rated" (lower "The TOP Rated app") = true /\
  contains "best" (lower "Be st") = false.
Proof. split; reflexivity. Qed.

Example dumps_example :
  Json.dumps (Json.JDict [("valid", Json.JBool true);
                          ("issues", Json.JList []);
                          ("title_length", Json.JInt 13)]) 2
  = "{" ++ Json.newline
    ++ "  " ++ Json.dquote ++ "valid" ++ Json.dquote ++ ": true,"
    ++ Json.newline
    ++ "  " ++ Json.dquote ++ "issues" ++ Json.dquote ++ ": [],"
    ++ Json.newline
    ++ "  " ++ Json.dquote ++ "title_length" ++ Json.dquote ++ ": 13"
    ++ Json.newline ++ "}".
Proof. reflexivity. Qed.

End PyFacts.

(** ** Facts about the validator *)
Module ValidatorFacts.
Import Py PyFacts Validator.

Lemma as_strings_JStr (l : list string) :
  Json.as_strings (Some (Json.JList (List.map Json.JStr l))) = l.
Proof.
  unfold Json.as_strings. induction l as [|x l IH]; simpl; [reflexivity|].
  f_equal. exact IH.
Qed.

(** The blocking issues, in the order the function appends them. *)
Lemma check_issues (title description store : string) :
  issues (check title description store) =
  ((if mem store ["ios"; "both"] && (30 <? len title)
    then [ios_title_msg (len title)] else []) ++
   (if 4000 <? len description
    then [description_long_msg (len description)] else []))%list.
Proof.
  unfold check, prohibited. cbn [fold_left].
  repeat match goal with
         | |- context [if ?b then _ else _] => destruct b
         end; reflexivity.
Qed.

(** The warnings, in the order the function appends them. *)
Lemma check_warnings (title description store : string) :
  warnings (check title description store) =
  ((if mem store ["android"; "both"] && (50 <? len title)
    then [android_title_msg (len title)] else []) ++
   (if negb (llen (split (lower title)) =? len_set (split (lower title)))
    then [repeated_words_msg] else []) ++
   List.map discouraged_msg
     (List.filter (fun term => contains term (lower title)) prohibited) ++
   (if len description <? 200
    then [description_short_msg (len description)] else []))%list.
Proof.
  unfold check, prohibited. cbn [fold_left List.filter List.map].
  repeat match goal with
         | |- context [if ?b then _ else _] => destruct b
         end; reflexivity.
Qed.

Lemma issues_of_result (title description store : string) :
  issues_of (result title description store) =
  issues (check title description store).
Proof. unfold issues_of, result. apply as_strings_JStr. Qed.

Lemma warnings_of_result (title description store : string) :
  warnings_of (result title description store) =
  warnings (check title description store).
Proof. unfold warnings_of, result. apply as_strings_JStr. Qed.

Lemma valid_of_result (title description store : string) :
  valid_of (result title description store) =
  Some (llen (issues (check title description store)) =? 0).
Proof. reflexivity. Qed.

Lemma llen_zero {A} (l : list A) : (llen l =? 0) = true <-> l = [].
Proof.
  unfold llen. destruct l; simpl; split; try reflexivity; discriminate.
Qed.

(** Membership in a list holding one message or none. *)
Lemma In_when (b : bool) (m x : string) :
  In x (if b then [m] else []) <-> b = true /\ m = x.
Proof. destruct b; simpl; intuition congruence. Qed.

(** The messages of different rules never coincide: they differ within
    their first two characters. *)
Ltac msg_discr :=
  intros;
  unfold ios_title_msg, android_title_msg, repeated_words_msg,
    discouraged_msg, description_short_msg, description_long_msg;
  rewrite ?append_cons; discriminate.

Lemma ios_ne_long n m : ios_title_msg n <> description_long_msg m.
Proof. msg_discr. Qed.

Lemma android_ne_repeated n : android_title_msg n <> repeated_words_msg.
Proof. msg_discr. Qed.

Lemma android_ne_discouraged n t : android_title_msg n <> discouraged_msg t.
Proof. msg_discr. Qed.

Lemma android_ne_short n m : android_title_msg n <> description_short_msg m.
Proof. msg_discr. Qed.

Lemma repeated_ne_discouraged t : repeated_words_msg <> discouraged_msg t.
Proof. msg_discr. Qed.

Lemma repeated_ne_short n : repeated_words_msg <> description_short_msg n.
Proof. msg_discr. Qed.

Lemma discouraged_ne_short t n : discouraged_msg t <> description_short_msg n.
Proof. msg_discr. Qed.

Lemma discouraged_msg_inj t u : discouraged_msg t = discouraged_msg u -> t = u.
Proof.
  unfold discouraged_msg. intros H.
  apply append_inv_head in H. apply append_inv_tail in H. exact H.
Qed.

Lemma In_discouraged (f : string -> bool) (term : string) :
  In (discouraged_msg term) (List.map discouraged_msg (List.filter f prohibited))
  <-> In term prohibited /\ f term = true.
Proof.
  rewrite in_map_iff. split.
  - intros (u & E & Hu). apply discouraged_msg_inj in E as ->.
    apply filter_In in Hu. exact Hu.
  - intros H. exists term. split; [reflexivity|]. apply filter_In. exact H.
Qed.

(** Which store values switch on each title rule. *)
Lemma mem_ios_both s : mem s ["ios"; "both"] = true <-> s = "ios" \/ s = "both".
Proof.
  unfold mem. simpl. rewrite !orb_true_iff, !String.eqb_eq. intuition discriminate.
Qed.

Lemma mem_android_both s :
  mem s ["android"; "both"] = true <-> s = "android" \/ s = "both".
Proof.
  unfold mem. simpl. rewrite !orb_true_iff, !String.eqb_eq. intuition discriminate.
Qed.

(** Membership in the two lists of a result, rule by rule. *)
Lemma In_issues (x title description store : string) :
  In x (issues_of (result title description store)) <->
  (mem store ["ios"; "both"] = true /\ 30 < len title /\
   x = ios_title_msg (len title)) \/
  (4000 < len description /\ x = description_long_msg (len description)).
Proof.
  rewrite issues_of_result, check_issues, in_app_iff, !In_when.
  rewrite andb_true_iff, !Z.ltb_lt. intuition congruence.
Qed.

Lemma In_warnings (x title description store : string) :
  In x (warnings_of (result title description store)) <->
  (mem store ["android"; "both"] = true /\ 50 < len title /\
   x = android_title_msg (len title)) \/
  (~ NoDup (split (lower title)) /\ x = repeated_words_msg) \/
  (exists term, In term prohibited /\ contains term (lower title) = true /\
                x = discouraged_msg term) \/
  (len description < 200 /\ x = description_short_msg (len description)).
Proof.
  rewrite warnings_of_result, check_warnings, !in_app_iff, !In_when.
  rewrite andb_true_iff, !Z.ltb_lt, negb_true_iff, in_map_iff.
  rewrite <- len_set_NoDup, <- Z.eqb_eq, <- not_true_iff_false.
  split.
  - intros [H|[H|[(u & E & Hu)|H]]].
    + left. intuition congruence.
    + right. left. intuition congruence.
    + right. right. left. apply filter_In in Hu. exists u. intuition congruence.
    + right. right. right. intuition congruence.
  - intros [H|[H|[(u & Hu & Hc & E)|H]]].
    + left. intuition congruence.
    + right. left. intuition congruence.
    + right. right. left. exists u. split; [congruence|].
      apply filter_In. auto.
    + right. right. right. intuition congruence.
Qed.

Lemma valid_true_iff (title description store : string) :
  valid_of (result title description store) = Some true <->
  issues_of (result title description store) = [].
Proof.
  rewrite valid_of_result, issues_of_result. split.
  - intros H. apply llen_zero. congruence.
  - intros ->. reflexivity.
Qed.

Lemma valid_of_bool (title description store : string) :
  valid_of (result title description store) =
  Some (negb (mem store ["ios"; "both"] && (30 <? len title))
        && negb (4000 <? len description)).
Proof.
  rewrite valid_of_result, check_issues.
  destruct (mem store _ && _), (4000 <? len description); reflexivity.
Qed.

End ValidatorFacts.
(** ** The rules of the validator *)
Module ValidatorSpec.
Import Py PyFacts Validator ValidatorFacts.

(** C2: the [valid] field is [true] exactly when the list of blocking
    issues is empty, and [false] exactly when it is not; it is a function
    of the issues alone, so two results with the same issues have the same
    [valid] field whatever their warnings are. *)
Theorem valid_iff_no_issues (title description store : string) :
  let r := result title description store in
  (valid_of r = Some true <-> issues_of r = []) /\
  (valid_of r = Some false <-> issues_of r <> []) /\
  valid_of r = Some (match issues_of r with [] => true | _ => false end) /\
  (forall title' description' store',
      let r' := result title' description' store' in
      issues_of r' = issues_of r -> valid_of r' = valid_of r).
Proof.
  cbn zeta.
  assert (forall t d s, valid_of (result t d s) =
            Some (match issues_of (result t d s) with
                  | [] => true | _ => false end)) as Hv.
  { intros t d s. rewrite valid_of_result, issues_of_result.
    destruct (issues (check t d s)); reflexivity. }
  split; [apply valid_true_iff|]. split; [|split].
  - rewrite Hv. destruct (issues_of _); split; congruence.
  - apply Hv.
  - intros t' d' s' E. rewrite (Hv t' d' s'), Hv, E. reflexivity.
Qed.

Lemma valid_iff_no_issues_witness :
  valid_of (result "Best App Best" "A short text" "android")
  = valid_of (result "Notes" (replicate_char 300 "x") "ios").
Proof.
  pose proof (valid_iff_no_issues "Notes" (replicate_char 300 "x") "ios") as H.
  cbn zeta in H. destruct H as (_ & _ & _ & H).
  apply (H "Best App Best" "A short text" "android").
  vm_compute. reflexivity.
Defined.

(** C3: for the stores [ios] and [both], the issue that reports the
    observed title length against the limit of 30 is present exactly when
    the title is longer than 30 characters. At 30 characters no title
    issue of any reported length is present (and with a description of at
    most 4000 characters there is no issue at all); at 31 characters the
    issue is present and the result is not valid. *)
Theorem ios_title_rule (title description store : string) :
  store = "ios" \/ store = "both" ->
  let r := result title description store in
  (In (ios_title_msg (len title)) (issues_of r) <-> 30 < len title) /\
  (len title <= 30 -> forall n, ~ In (ios_title_msg n) (issues_of r)) /\
  (len title = 30 -> len description <= 4000 ->
   issues_of r = [] /\ valid_of r = Some true) /\
  (len title = 31 ->
   In (ios_title_msg 31) (issues_of r) /\ valid_of r = Some false).
Proof.
  intros Hs. cbn zeta. apply mem_ios_both in Hs.
  assert (forall n, In (ios_title_msg n) (issues_of (result title description store))
                    -> 30 < len title) as Hany.
  { intros n H. apply In_issues in H as [(_ & H & _)|(_ & E)]; [exact H|].
    exfalso. exact (ios_ne_long _ _ E). }
  split; [|split; [|split]].
  - split; [apply Hany|]. intros H. apply In_issues. left. auto.
  - intros Hle n H. specialize (Hany n H). lia.
  - intros Ht Hd. rewrite valid_true_iff. cut (issues_of (result title description store) = []); [auto|].
    rewrite issues_of_result, check_issues.
    replace (30 <? len title) with false by (symmetry; apply Z.ltb_ge; lia).
    replace (4000 <? len description) with false by (symmetry; apply Z.ltb_ge; lia).
    rewrite andb_false_r. reflexivity.
  - intros Ht. split.
    + rewrite <- Ht. apply In_issues. left. split; [exact Hs|]. split; [lia|reflexivity].
    + rewrite valid_of_bool, Hs.
      replace (30 <? len title) with true by (symmetry; apply Z.ltb_lt; lia).
      reflexivity.
Qed.

Lemma ios_title_rule_witness :
  let t31 := replicate_char 31 "a" in
  ("ios" = "ios" \/ "ios" = "both") /\
  In (ios_title_msg 31) (issues_of (result t31 "A short text" "ios")) /\
  valid_of (result t31 "A short text" "ios") = Some false.
Proof.
  cbn zeta.
  assert ("ios" = "ios" \/ "ios" = "both") as Hs by (left; reflexivity).
  split; [exact Hs|].
  pose proof (ios_title_rule (replicate_char 31 "a") "A short text" "ios" Hs)
    as H.
  cbn zeta in H. destruct H as (_ & _ & _ & H). apply H.
  vm_compute. reflexivity.
Defined.

(** C4: a description shorter than 200 characters gets the short-description
    warning, which is never among the issues; a description longer than
    4000 characters gets the long-description issue and the result is not
    valid. At exactly 4000 characters neither message is present and the
    result is valid unless the title issue is; at 4001 characters the issue
    is present and the result is not valid. *)
Theorem description_length_rule (title description store : string) :
  let r := result title description store in
  (In (description_short_msg (len description)) (warnings_of r)
   <-> len description < 200) /\
  (forall n, ~ In (description_short_msg n) (issues_of r)) /\
  (In (description_long_msg (len description)) (issues_of r)
   <-> 4000 < len description) /\
  (4000 < len description -> valid_of r = Some false) /\
  (len description = 4000 ->
   (forall n, ~ In (description_long_msg n) (issues_of r)) /\
   (forall n, ~ In (description_short_msg n) (warnings_of r)) /\
   (valid_of r = Some true <->
    forall n, ~ In (ios_title_msg n) (issues_of r))) /\
  (len description = 4001 ->
   In (description_long_msg 4001) (issues_of r) /\ valid_of r = Some false).
Proof.
  cbn zeta.
  assert (4000 < len description ->
          valid_of (result title description store) = Some false) as Hinv.
  { intros H. rewrite valid_of_bool.
    replace (4000 <? len description) with true by (symmetry; apply Z.ltb_lt; lia).
    rewrite andb_false_r. reflexivity. }
  assert (In (description_long_msg (len description))
             (issues_of (result title description store))
          <-> 4000 < len description) as Hlong.
  { rewrite In_issues. split.
    - intros [(_ & _ & E)|(H & _)]; [|exact H].
      exfalso. symmetry in E. exact (ios_ne_long _ _ E).
    - intros H. right. auto. }
  split; [|split; [|split; [exact Hlong|split; [exact Hinv|split]]]].
  - rewrite In_warnings. split.
    + intros [(_ & _ & E)|[(_ & E)|[(u & _ & _ & E)|(H & _)]]]; [| | |exact H].
      * exfalso. symmetry in E. exact (android_ne_short _ _ E).
      * exfalso. symmetry in E. exact (repeated_ne_short _ E).
      * exfalso. symmetry in E. exact (discouraged_ne_short _ _ E).
    + intros H. right. right. right. auto.
  - intros n H. apply In_issues in H as [(_ & _ & E)|(_ & E)];
      revert E; msg_discr.
  - intros Hd. split; [|split].
    + intros n H. apply In_issues in H as [(_ & _ & E)|(H & _)]; [|lia].
      symmetry in E. exact (ios_ne_long _ _ E).
    + intros n H.
      apply In_warnings in H as [(_ & _ & E)|[(_ & E)|[(u & _ & _ & E)|(H & _)]]];
        [| | |lia]; revert E; msg_discr.
    + rewrite valid_true_iff. split.
      * intros -> n [].
      * intros H. rewrite issues_of_result, check_issues in *.
        replace (4000 <? len description) with false in *
          by (symmetry; apply Z.ltb_ge; lia).
        destruct (mem store _ && _); [|reflexivity].
        exfalso. apply (H (len title)). left. reflexivity.
  - intros Hd. split; [|apply Hinv; lia].
    rewrite <- Hd. apply Hlong. lia.
Qed.

Lemma description_length_rule_witness :
  let d4000 := replicate_char 4000 "x" in
  let d4001 := replicate_char 4001 "x" in
  (len d4000 = 4000 /\ valid_of (result "Notes" d4000 "ios") = Some true) /\
  (len d4001 = 4001 /\
   In (description_long_msg 4001) (issues_of (result "Notes" d4001 "ios")) /\
   valid_of (result "Notes" d4001 "ios") = Some false).
Proof.
  cbn zeta.
  assert (len (replicate_char 4000 "x") = 4000) as Hd0
    by (vm_compute; reflexivity).
  assert (len (replicate_char 4001 "x") = 4001) as Hd1
    by (vm_compute; reflexivity).
  split; (split; [assumption|]).
  - pose proof (description_length_rule "Notes" (replicate_char 4000 "x") "ios")
      as H.
    cbn zeta in H. destruct H as (_ & _ & _ & _ & H & _).
    destruct (H Hd0) as (_ & _ & Hv). apply Hv.
    intros n Hin. vm_compute in Hin. exact Hin.
  - pose proof (description_length_rule "Notes" (replicate_char 4001 "x") "ios")
      as H.
    cbn zeta in H. destruct H as (_ & _ & _ & _ & _ & H). exact (H Hd1).
Defined.

(** C5: for the stores [android] and [both], the warning about a long
    title is present exactly when the title is longer than 50 characters.
    It is a warning only: no such message is ever among the issues, and
    for the store [android] the result is valid exactly when the
    description has at most 4000 characters, whatever the title. At 50
    characters no such warning of any reported length is present; at 51
    characters it is. *)
Theorem android_title_rule (title description store : string) :
  store = "android" \/ store = "both" ->
  let r := result title description store in
  (In (android_title_msg (len title)) (warnings_of r) <-> 50 < len title) /\
  (len title <= 50 -> forall n, ~ In (android_title_msg n) (warnings_of r)) /\
  (forall n, ~ In (android_title_msg n) (issues_of r)) /\
  (store = "android" ->
   (valid_of r = Some true <-> len description <= 4000)) /\
  (len title = 50 -> forall n, ~ In (android_title_msg n) (warnings_of r)) /\
  (len title = 51 -> In (android_title_msg 51) (warnings_of r)).
Proof.
  intros Hs. cbn zeta. apply mem_android_both in Hs.
  assert (forall n, In (android_title_msg n)
                       (warnings_of (result title description store))
                    -> 50 < len title) as Hany.
  { intros n H.
    apply In_warnings in H as [(_ & H & _)|[(_ & E)|[(u & _ & _ & E)|(_ & E)]]];
      [exact H| | |]; exfalso.
    - exact (android_ne_repeated _ E).
    - exact (android_ne_discouraged _ _ E).
    - exact (android_ne_short _ _ E). }
  assert (50 < len title ->
          In (android_title_msg (len title))
             (warnings_of (result title description store))) as Hfire.
  { intros H. apply In_warnings. left. auto. }
  split; [|split; [|split; [|split; [|split]]]].
  - split; [apply Hany | apply Hfire].
  - intros Hle n H. specialize (Hany n H). lia.
  - intros n H. apply In_issues in H as [(_ & _ & E)|(_ & E)];
      revert E; msg_discr.
  - intros ->. rewrite valid_of_bool.
    change (mem "android" ["ios"; "both"]) with false.
    rewrite andb_false_l. simpl negb. rewrite andb_true_l.
    destruct (Z.ltb_spec 4000 (len description)); simpl; split;
      intros; try lia; congruence.
  - intros Ht n H. specialize (Hany n H). lia.
  - intros Ht. rewrite <- Ht. apply Hfire. lia.
Qed.

Lemma android_title_rule_witness :
  let t51 := replicate_char 51 "a" in
  ("android" = "android" \/ "android" = "both") /\
  len t51 = 51 /\
  In (android_title_msg 51) (warnings_of (result t51 "A short text" "android")) /\
  valid_of (result t51 "A short text" "android") = Some true.
Proof.
  cbn zeta.
  assert ("android" = "android" \/ "android" = "both") as Hs
    by (left; reflexivity).
  assert (len (replicate_char 51 "a") = 51) as Ht by (vm_compute; reflexivity).
  split; [exact Hs|]. split; [exact Ht|].
  pose proof (android_title_rule (replicate_char 51 "a") "A short text"
                "android" Hs) as H.
  cbn zeta in H. destruct H as (_ & _ & _ & Hv & _ & H51).
  split; [exact (H51 Ht)|]. apply (Hv eq_refl). vm_compute. discriminate.
Defined.

(** C6: the title is lower-cased and cut into words at whitespace; the
    keyword-stuffing warning is present exactly when some word occurs at
    two positions. For each term of the list ["#1"; "best"; "top rated";
    "free download"], the warning naming the term is present exactly when
    some stretch of the title lower-cases to the term; no other term is
    ever named. Neither kind of message is among the issues. The title
    "Best App Best" gets both the keyword-stuffing warning and the warning
    naming "best". *)
Theorem title_wording_rules (title description store : string) :
  let r := result title description store in
  let words := split (lower title) in
  (In repeated_words_msg (warnings_of r) <->
   exists i j w, (i < j)%nat /\ words !! i = Some w /\ words !! j = Some w) /\
  prohibited = ["#1"; "best"; "top rated"; "free download"] /\
  (forall term, In term prohibited ->
     (In (discouraged_msg term) (warnings_of r) <->
      exists a u b, title = a ++ u ++ b /\ lower u = term)) /\
  (forall term, In (discouraged_msg term) (warnings_of r) ->
     In term prohibited) /\
  ~ In repeated_words_msg (issues_of r) /\
  (forall term, ~ In (discouraged_msg term) (issues_of r)) /\
  (let r' := result "Best App Best" description store in
   In repeated_words_msg (warnings_of r') /\
   In (discouraged_msg "best") (warnings_of r')).
Proof.
  cbn zeta.
  assert (forall t d s term,
             In (discouraged_msg term) (warnings_of (result t d s)) <->
             In term prohibited /\ contains term (lower t) = true) as Hdis.
  { intros t d s term. rewrite In_warnings. split.
    - intros [(_ & _ & E)|[(_ & E)|[(u & Hu & Hc & E)|(_ & E)]]].
      + exfalso. symmetry in E. exact (android_ne_discouraged _ _ E).
      + exfalso. symmetry in E. exact (repeated_ne_discouraged _ E).
      + apply discouraged_msg_inj in E as ->. auto.
      + exfalso. exact (discouraged_ne_short _ _ E).
    - intros [H1 H2]. right. right. left. exists term. auto. }
  assert (forall t d s,
             In repeated_words_msg (warnings_of (result t d s)) <->
             ~ NoDup (split (lower t))) as Hrep.
  { intros t d s. rewrite In_warnings. split.
    - intros [(_ & _ & E)|[(H & _)|[(u & _ & _ & E)|(_ & E)]]].
      + exfalso. symmetry in E. exact (android_ne_repeated _ E).
      + exact H.
      + exfalso. exact (repeated_ne_discouraged _ E).
      + exfalso. exact (repeated_ne_short _ E).
    - intros H. right. left. auto. }
  split; [|split; [reflexivity|split; [|split; [|split; [|split]]]]].
  - rewrite Hrep. apply not_NoDup_repeats.
  - intros term Hterm. rewrite Hdis, <- contains_lower_spec. tauto.
  - intros term H. apply Hdis in H. tauto.
  - intros H. apply In_issues in H as [(_ & _ & E)|(_ & E)];
      revert E; msg_discr.
  - intros term H. apply In_issues in H as [(_ & _ & E)|(_ & E)];
      revert E; msg_discr.
  - split.
    + apply Hrep. rewrite <- len_set_NoDup. vm_compute. discriminate.
    + apply Hdis. split; [simpl; tauto | vm_compute; reflexivity].
Qed.

Lemma title_wording_rules_witness :
  In (discouraged_msg "top rated")
     (warnings_of (result "Top Rated Camera" "A short text" "ios")).
Proof.
  pose proof (title_wording_rules "Top Rated Camera" "A short text" "ios")
    as H.
  cbn zeta in H. destruct H as (_ & _ & H & _).
  apply (H "top rated").
  - simpl. tauto.
  - exists EmptyString, "Top Rated", " Camera". split; reflexivity.
Defined.

(** C8: whatever the arguments, the result carries the length of the
    title, the length of the description, and the same four
    recommendations in the same order. *)
Theorem lengths_and_recommendations (title description store : string) :
  let r := result title description store in
  Json.as_int (Json.get "title_length" r)
  = Some (Z.of_nat (String.length title)) /\
  Json.as_int (Json.get "description_length" r)
  = Some (Z.of_nat (String.length description)) /\
  Json.as_strings (Json.get "recommendations" r)
  = ["Use natural language";
     "Focus on user benefits";
     "Include clear call-to-action";
     "Use bullet points for readability"] /\
  List.length (Json.as_strings (Json.get "recommendations" r)) = 4%nat.
Proof. cbn zeta. repeat split. Qed.

(** C9: for a store other than [ios], [android] and [both] the function
    still returns a result, and neither title rule applies: no title
    issue and no title warning of any reported length is present, the
    only possible issue is the one about a long description, and the
    result is valid exactly when the description has at most 4000
    characters. *)
Theorem unknown_store_skips_title_rules (title description store : string) :
  store <> "ios" -> store <> "android" -> store <> "both" ->
  let r := result title description store in
  (exists text, validate_app_store_content title description store = text /\
                text = Json.dumps r 2) /\
  (forall n, ~ In (ios_title_msg n) (issues_of r)) /\
  (forall n, ~ In (android_title_msg n) (warnings_of r)) /\
  issues_of r = (if 4000 <? len description
                 then [description_long_msg (len description)] else []) /\
  (valid_of r = Some true <-> len description <= 4000).
Proof.
  intros Hi Ha Hb. cbn zeta.
  assert (mem store ["ios"; "both"] = false) as Hm1.
  { apply not_true_iff_false. rewrite mem_ios_both. tauto. }
  assert (mem store ["android"; "both"] = false) as Hm2.
  { apply not_true_iff_false. rewrite mem_android_both. tauto. }
  split; [eexists; split; reflexivity|]. split; [|split; [|split]].
  - intros n H. apply In_issues in H as [(H & _)|(_ & E)]; [congruence|].
    exact (ios_ne_long _ _ E).
  - intros n H.
    apply In_warnings in H as [(H & _)|[(_ & E)|[(u & _ & _ & E)|(_ & E)]]];
      [congruence| | |]; revert E; msg_discr.
  - rewrite issues_of_result, check_issues, Hm1. reflexivity.
  - rewrite valid_of_bool, Hm1. simpl.
    destruct (Z.ltb_spec 4000 (len description)); simpl; split;
      intros; try lia; congruence.
Qed.

Lemma unknown_store_skips_title_rules_witness :
  let t300 := replicate_char 300 "a" in
  let d250 := replicate_char 250 "x" in
  ("windows" <> "ios" /\ "windows" <> "android" /\ "windows" <> "both") /\
  len t300 = 300 /\
  issues_of (result t300 d250 "windows") = [] /\
  warnings_of (result t300 d250 "windows") = [] /\
  valid_of (result t300 d250 "windows") = Some true.
Proof.
  cbn zeta.
  assert ("windows" <> "ios") as H1 by discriminate.
  assert ("windows" <> "android") as H2 by discriminate.
  assert ("windows" <> "both") as H3 by discriminate.
  split; [auto|]. split; [vm_compute; reflexivity|].
  pose proof (unknown_store_skips_title_rules (replicate_char 300 "a")
                (replicate_char 250 "x") "windows" H1 H2 H3) as H.
  cbn zeta in H. destruct H as (_ & _ & _ & Hiss & Hv).
  split; [|split].
  - rewrite Hiss. vm_compute. reflexivity.
  - vm_compute. reflexivity.
  - apply Hv. vm_compute. discriminate.
Defined.

(** C10: the discouraged-term rule matches each term of the fixed list as
    a raw substring of the lower-cased title, not as a whole word. For
    every title, description and store and every listed term, the warning
    naming the term is present exactly when the term occurs somewhere in
    the lower-cased title, that is, exactly when some stretch of the title
    lower-cases to the term, whatever characters stand before and after
    it. So any title that contains "Best" gets the warning naming "best":
    the title "Bestow" is the single word "bestow", which is not the word
    "best", and it gets the warning; the title "Be st", where the letters
    are not adjacent, does not. *)
Theorem discouraged_term_inside_word :
  (forall title description store term,
      In term prohibited ->
      let r := result title description store in
      (In (discouraged_msg term) (warnings_of r)
       <-> contains term (lower title) = true) /\
      (In (discouraged_msg term) (warnings_of r)
       <-> exists a u b, title = a ++ u ++ b /\ lower u = term) /\
      (forall a u b, title = a ++ u ++ b -> lower u = term ->
                     In (discouraged_msg term) (warnings_of r))) /\
  (forall a b description store,
      In (discouraged_msg "best")
         (warnings_of (result (a ++ "Best" ++ b) description store))) /\
  split (lower "Bestow") = ["bestow"] /\
  ~ In "best" (split (lower "Bestow")) /\
  (forall description store,
      In (discouraged_msg "best")
         (warnings_of (result "Bestow" description store))) /\
  (forall description store,
      ~ In (discouraged_msg "best")
           (warnings_of (result "Be st" description store))).
Proof.
  assert (forall t d s term,
             In term prohibited ->
             (In (discouraged_msg term) (warnings_of (result t d s)) <->
              contains term (lower t) = true)) as Hdis.
  { intros t d s term Hterm. rewrite In_warnings. split.
    - intros [(_ & _ & E)|[(_ & E)|[(u & Hu & Hc & E)|(_ & E)]]].
      + exfalso. symmetry in E. exact (android_ne_discouraged _ _ E).
      + exfalso. symmetry in E. exact (repeated_ne_discouraged _ E).
      + apply discouraged_msg_inj in E as ->. exact Hc.
      + exfalso. exact (discouraged_ne_short _ _ E).
    - intros Hc. right. right. left. exists term. auto. }
  assert (In "best" prohibited) as Hbest by (simpl; tauto).
  assert (forall a b d s,
             In (discouraged_msg "best")
                (warnings_of (result (a ++ "Best" ++ b) d s))) as H.
  { intros a b d s. apply (Hdis _ d s "best" Hbest).
    apply contains_lower_spec. exists a, "Best", b. split; reflexivity. }
  split; [|split; [exact H|split; [vm_compute; reflexivity|split; [|split]]]].
  - intros t d s term Hterm. cbn zeta.
    split; [apply Hdis, Hterm|]. split.
    + rewrite (Hdis t d s term Hterm). apply contains_lower_spec.
    + intros a u b Ht Hu. apply (Hdis t d s term Hterm).
      apply contains_lower_spec. exists a, u, b. split; assumption.
  - vm_compute. intros [E|[]]. discriminate.
  - intros d s. exact (H EmptyString "ow" d s).
  - intros d s Hin. apply (Hdis _ d s "best" Hbest) in Hin.
    vm_compute in Hin. discriminate.
Qed.

Lemma discouraged_term_inside_word_witness :
  In "free download" prohibited /\
  In (discouraged_msg "free download")
     (warnings_of (result "Carefree Downloads" "A short text" "android")) /\
  ~ In "free download" (split (lower "Carefree Downloads")).
Proof.
  assert (In "free download" prohibited) as Hterm by (simpl; tauto).
  split; [exact Hterm|]. split.
  - pose proof discouraged_term_inside_word as H.
    destruct H as (H & _).
    specialize (H "Carefree Downloads" "A short text" "android"
                  "free download" Hterm).
    cbn zeta in H. destruct H as (_ & _ & H).
    apply (H "Care" "free Download" "s"); reflexivity.
  - vm_compute. intros [E|[E|[]]]; discriminate.
Defined.

End ValidatorSpec.

(** ** The shape of the pipeline *)
Module PipelineSpec.
Import Pipeline.

(** C1, as the claim words it: the second stage would be named
    "competitor_analysis". It is named "competitor_analyst"; only its
    output key is "competitor_analysis". *)
Lemma stage_names_not_as_claimed :
  name <$> (sub_agents root_agent !! 1%nat) = Some "competitor_analyst" /\
  List.map name (sub_agents root_agent)
  <> ["keyword_researcher"; "competitor_analysis"; "content_writer";
      "aso_aggregator"].
Proof. split; [reflexivity | discriminate]. Qed.

(** C1, amended: the pipeline is the list of exactly four stages named
    keyword_researcher, competitor_analyst, content_writer and
    aso_aggregator, in that order. The first three declare the output keys
    keyword_research, competitor_analysis and content_variants, which are
    pairwise distinct, and the aggregator declares none. The first two
    instructions refer to no key, the content writer's refers to
    keyword_research and competitor_analysis, the aggregator's to all
    three; so every key an instruction refers to is the output key of a
    stage strictly before it. *)
Theorem pipeline_shape :
  let stages := sub_agents root_agent in
  stages = [keyword_research_agent; competitor_analysis_agent;
            content_writer_agent; aggregator_agent] /\
  List.map name stages
  = ["keyword_researcher"; "competitor_analyst"; "content_writer";
     "aso_aggregator"] /\
  List.map output_key stages
  = [Some "keyword_research"; Some "competitor_analysis";
     Some "content_variants"; None] /\
  NoDup (omap output_key stages) /\
  List.map (fun a => placeholders (instruction a)) stages
  = [[]; [];
     ["keyword_research"; "competitor_analysis"];
     ["keyword_research"; "competitor_analysis"; "content_variants"]] /\
  (forall i a k,
      stages !! i = Some a ->
      In k (placeholders (instruction a)) ->
      In k (keys_before stages i) /\
      exists j b, (j < i)%nat /\ stages !! j = Some b /\
                  output_key b = Some k).
Proof.
  cbn zeta. split; [reflexivity|]. split; [reflexivity|].
  split; [reflexivity|]. split; [|split].
  - vm_compute. repeat constructor; rewrite ?list_elem_of_In; simpl;
      intuition discriminate.
  - vm_compute. reflexivity.
  - intros i a k Hi Hk.
    destruct i as [|[|[|[|i]]]]; simpl in Hi; try discriminate;
      injection Hi as <-; vm_compute in Hk.
    + destruct Hk.
    + destruct Hk.
    + destruct Hk as [<-|[<-|[]]].
      * split; [vm_compute; tauto|].
        exists 0%nat, keyword_research_agent. repeat split. lia.
      * split; [vm_compute; tauto|].
        exists 1%nat, competitor_analysis_agent. repeat split. lia.
    + destruct Hk as [<-|[<-|[<-|[]]]].
      * split; [vm_compute; tauto|].
        exists 0%nat, keyword_research_agent. repeat split. lia.
      * split; [vm_compute; tauto|].
        exists 1%nat, competitor_analysis_agent. repeat split. lia.
      * split; [vm_compute; tauto|].
        exists 2%nat, content_writer_agent. repeat split. lia.
Qed.

Lemma pipeline_shape_witness :
  In "content_variants" (keys_before (sub_agents root_agent) 3).
Proof.
  pose proof pipeline_shape as H. cbn zeta in H.
  destruct H as (_ & _ & _ & _ & _ & H).
  apply (H 3%nat aggregator_agent "content_variants").
  - reflexivity.
  - vm_compute. tauto.
Defined.

(** C7: each of the four stages uses the one retry policy, whose
    parameters are 5 attempts, backoff base 7, initial delay 1 and the
    status codes 429, 500, 502, 503 and 504. *)
Theorem retry_policy_shared :
  List.length (sub_agents root_agent) = 4%nat /\
  Forall (fun a => retry_options (model a) = retry_config)
         (sub_agents root_agent) /\
  attempts retry_config = 5 /\
  exp_base retry_config = 7 /\
  initial_delay retry_config = 1 /\
  http_status_codes retry_config = [429; 500; 502; 503; 504].
Proof.
  split; [reflexivity|]. split; [|repeat split].
  repeat constructor.
Qed.

End PipelineSpec.

(** ** Further properties of the validator *)
Module ValidatorMore.
Import Py PyFacts Validator ValidatorFacts Checks.

Lemma lower_char_idem (c : ascii) : lower_char (lower_char c) = lower_char c.
Proof. destruct c as [[] [] [] [] [] [] [] []]; reflexivity. Qed.

Lemma lower_idem (s : string) : lower (lower s) = lower s.
Proof.
  induction s as [|c s IH]; simpl; [reflexivity|].
  rewrite lower_char_idem, IH. reflexivity.
Qed.

Lemma len_lower (s : string) : len (lower s) = len s.
Proof. unfold len. rewrite lower_length. reflexivity. Qed.

(** X1: The result is valid exactly when the description has at most 4000
    characters and, for the stores [ios] and [both], the title has at most
    30. *)
Theorem valid_characterisation (title description store : string) :
  valid_of (result title description store) = Some true <->
  len description <= 4000 /\
  (store = "ios" \/ store = "both" -> len title <= 30).
Proof.
  rewrite valid_of_bool.
  destruct (mem store ["ios"; "both"]) eqn:Em.
  - assert (store = "ios" \/ store = "both") as Hs
      by (apply mem_ios_both; exact Em).
    rewrite andb_true_l.
    destruct (Z.ltb_spec 30 (len title)) as [Ht|Ht];
      destruct (Z.ltb_spec 4000 (len description)) as [Hd|Hd]; simpl;
      split; intros G; try discriminate; try reflexivity;
      try (split; [lia | intros; lia]);
      destruct G as [G1 G2]; try lia; specialize (G2 Hs); lia.
  - assert (~ (store = "ios" \/ store = "both")) as Hs
      by (rewrite <- mem_ios_both; congruence).
    rewrite andb_false_l.
    destruct (Z.ltb_spec 4000 (len description)) as [Hd|Hd]; simpl;
      split; intros G; try discriminate; try reflexivity.
    + lia.
    + split; [lia | tauto].
Qed.

(** X2: The two lists in full: the issues are the title issue, if any, then
    the description issue, if any; the warnings are the title warning,
    the keyword-stuffing warning, the discouraged terms in the order of the
    fixed list (not of their place in the title), and the description
    warning, each only if its rule applies. *)
Theorem findings_in_rule_order (title description store : string) :
  let r := result title description store in
  issues_of r =
  ((if mem store ["ios"; "both"] && (30 <? len title)
    then [ios_title_msg (len title)] else []) ++
   (if 4000 <? len description
    then [description_long_msg (len description)] else []))%list /\
  warnings_of r =
  ((if mem store ["android"; "both"] && (50 <? len title)
    then [android_title_msg (len title)] else []) ++
   (if negb (llen (split (lower title)) =? len_set (split (lower title)))
    then [repeated_words_msg] else []) ++
   List.map discouraged_msg
     (List.filter (fun term => contains term (lower title))
                  ["#1"; "best"; "top rated"; "free download"]) ++
   (if len description <? 200
    then [description_short_msg (len description)] else []))%list.
Proof.
  cbn zeta. rewrite issues_of_result, warnings_of_result.
  split; [apply check_issues | apply check_warnings].
Qed.

Lemma length_when (b : bool) (m : string) :
  (List.length (if b then [m] else []) <= 1)%nat.
Proof. destruct b; simpl; lia. Qed.

Lemma length_filter_le {A} (f : A -> bool) (l : list A) :
  (List.length (List.filter f l) <= List.length l)%nat.
Proof.
  induction l as [|x l IH]; simpl; [lia|]. destruct (f x); simpl; lia.
Qed.

(** X3: A result holds at most two issues and at most seven warnings, and at
    most eight findings in all, since a description cannot be both too
    short and too long. Eight is reached. *)
Theorem findings_bounds :
  (forall title description store,
      let r := result title description store in
      (List.length (issues_of r) <= 2)%nat /\
      (List.length (warnings_of r) <= 7)%nat /\
      (List.length (issues_of r) + List.length (warnings_of r) <= 8)%nat) /\
  (exists title description store,
      let r := result title description store in
      List.length (issues_of r) = 1%nat /\
      List.length (warnings_of r) = 7%nat).
Proof.
  split.
  - intros t d s. cbn zeta.
    rewrite issues_of_result, warnings_of_result, check_issues, check_warnings.
    rewrite !length_app, length_map.
    pose proof (length_when (mem s ["ios"; "both"] && (30 <? len t))
                  (ios_title_msg (len t))) as H1.
    pose proof (length_when (mem s ["android"; "both"] && (50 <? len t))
                  (android_title_msg (len t))) as H2.
    pose proof (length_when
                  (negb (llen (split (lower t)) =? len_set (split (lower t))))
                  repeated_words_msg) as H3.
    pose proof (length_filter_le (fun term => contains term (lower t))
                  prohibited) as H4.
    change (List.length prohibited) with 4%nat in H4.
    pose proof (length_when (len d <? 200) (description_short_msg (len d)))
      as H5.
    pose proof (length_when (4000 <? len d) (description_long_msg (len d)))
      as H6.
    assert (List.length (if (len d <? 200)%Z
                         then [description_short_msg (len d)] else [])
            + List.length (if (4000 <? len d)%Z
                           then [description_long_msg (len d)] else [])
            <= 1)%nat as H7.
    { destruct (Z.ltb_spec (len d) 200) as [Hlo|Hlo];
        destruct (Z.ltb_spec 4000 (len d)) as [Hhi|Hhi];
        simpl; lia. }
    repeat split; lia.
  - exists "#1 best top rated free download best apps for everyone",
           "A short text", "both".
    vm_compute. split; reflexivity.
Qed.

(** X4: The description counts through its length only: two descriptions of
    the same length give the same output text. *)
Theorem description_counts_by_length (title d1 d2 store : string) :
  len d1 = len d2 ->
  validate_app_store_content title d1 store
  = validate_app_store_content title d2 store.
Proof.
  intros H. unfold validate_app_store_content, result, check.
  rewrite H. reflexivity.
Qed.

Lemma description_counts_by_length_witness :
  len "abc" = len "xyz" /\
  validate_app_store_content "Notes" "abc" "ios"
  = validate_app_store_content "Notes" "xyz" "ios".
Proof.
  assert (len "abc" = len "xyz") as H by reflexivity.
  split; [exact H|].
  exact (description_counts_by_length "Notes" "abc" "xyz" "ios" H).
Defined.

(** X5: The title counts through its lower-cased form only: titles that
    differ in letter case give the same output text, and lower-casing the
    title beforehand changes nothing. *)
Theorem title_case_is_ignored (title description store : string) :
  validate_app_store_content (lower title) description store
  = validate_app_store_content title description store /\
  (forall title',
      lower title' = lower title ->
      validate_app_store_content title' description store
      = validate_app_store_content title description store).
Proof.
  assert (forall t t', lower t' = lower t ->
            validate_app_store_content t' description store
            = validate_app_store_content t description store) as H.
  { intros t t' E.
    assert (len t' = len t) as El
      by (rewrite <- (len_lower t'), <- (len_lower t), E; reflexivity).
    unfold validate_app_store_content, result, check.
    rewrite E, El. reflexivity. }
  split; [|apply H]. apply H, lower_idem.
Qed.

Lemma title_case_is_ignored_witness :
  validate_app_store_content "BEST app" "A short text" "both"
  = validate_app_store_content "Best App" "A short text" "both".
Proof.
  pose proof (title_case_is_ignored "Best App" "A short text" "both") as H.
  destruct H as [_ H]. apply H. reflexivity.
Defined.

(** X6: The store [both], which is the default, applies the title rule of
    [ios] and the one of [android]: its issues are those of [ios], its
    warnings those of [android], and it is valid when [ios] is. *)
Theorem both_combines_ios_and_android (title description : string) :
  default_store = "both" /\
  issues_of (result title description "both")
  = issues_of (result title description "ios") /\
  warnings_of (result title description "both")
  = warnings_of (result title description "android") /\
  valid_of (result title description "both")
  = valid_of (result title description "ios") /\
  warnings_of (result title description "ios")
  = List.filter (fun m => negb (String.eqb m (android_title_msg (len title))))
                (warnings_of (result title description "both")).
Proof.
  split; [reflexivity|].
  rewrite !issues_of_result, !warnings_of_result, !valid_of_result,
    !check_issues, !check_warnings.
  split; [reflexivity|]. split; [reflexivity|]. split; [reflexivity|].
  change (mem "ios" ["android"; "both"]) with false.
  change (mem "both" ["android"; "both"]) with true.
  rewrite andb_false_l, andb_true_l.
  set (keep := fun m => negb (String.eqb m (android_title_msg (len title)))).
  assert (forall l, (forall m, In m l -> m <> android_title_msg (len title)) ->
                    List.filter keep l = l) as Hkeep.
  { induction l as [|m l IH]; intros Hl; simpl; [reflexivity|].
    unfold keep at 1.
    destruct (String.eqb_spec m (android_title_msg (len title))) as [E|_].
    - exfalso. apply (Hl m); [left; reflexivity | exact E].
    - simpl. f_equal. apply IH. intros m' Hm'. apply Hl. right. exact Hm'. }
  assert (forall m,
      In m ((if negb (llen (split (lower title))
                      =? len_set (split (lower title)))
             then [repeated_words_msg] else []) ++
            List.map discouraged_msg
              (List.filter (fun term => contains term (lower title))
                           prohibited) ++
            (if len description <? 200
             then [description_short_msg (len description)] else []))%list ->
      m <> android_title_msg (len title)) as Hrest.
  { intros m Hm E. subst m.
    rewrite !in_app_iff, !In_when, in_map_iff in Hm.
    destruct Hm as [(_ & E)|[(u & E & _)|(_ & E)]]; revert E; msg_discr. }
  destruct (50 <? len title).
  - rewrite List.filter_app. cbn [List.filter]. unfold keep at 1.
    rewrite String.eqb_refl. simpl. symmetry. apply Hkeep, Hrest.
  - simpl. symmetry. apply Hkeep, Hrest.
Qed.

(** X7: With the store [both], a title long enough for the Android warning
    is also too long for iOS: the warning never comes without the issue,
    and the result is not valid. *)
Theorem android_warning_implies_ios_issue (title description : string) :
  In (android_title_msg (len title))
     (warnings_of (result title description "both")) ->
  In (ios_title_msg (len title))
     (issues_of (result title description "both")) /\
  valid_of (result title description "both") = Some false.
Proof.
  intros H.
  assert (50 < len title) as Hlen.
  { apply In_warnings in H
      as [(_ & H & _)|[(_ & E)|[(u & _ & _ & E)|(_ & E)]]];
      [exact H| | |]; exfalso.
    - exact (android_ne_repeated _ E).
    - exact (android_ne_discouraged _ _ E).
    - exact (android_ne_short _ _ E). }
  split.
  - apply In_issues. left. split; [reflexivity|]. split; [lia|reflexivity].
  - rewrite valid_of_bool.
    replace (30 <? len title) with true by (symmetry; apply Z.ltb_lt; lia).
    reflexivity.
Qed.

Lemma android_warning_implies_ios_issue_witness :
  let t := replicate_char 51 "a" in
  In (android_title_msg (len t)) (warnings_of (result t "A short text" "both"))
  /\ valid_of (result t "A short text" "both") = Some false.
Proof.
  cbn zeta.
  assert (In (android_title_msg (len (replicate_char 51 "a")))
             (warnings_of (result (replicate_char 51 "a") "A short text"
                                  "both"))) as H
    by (vm_compute; left; reflexivity).
  split; [exact H|].
  exact (proj2 (android_warning_implies_ios_issue
                  (replicate_char 51 "a") "A short text" H)).
Defined.

Lemma str_of_int_inj (n m : Z) : str_of_int n = str_of_int m -> n = m.
Proof.
  unfold str_of_int. intros H.
  assert (forall z, Z.to_int z <> Decimal.Pos Decimal.Nil /\
                    Z.to_int z <> Decimal.Neg Decimal.Nil) as Hnz.
  { intros z. split; intros E; pose proof (f_equal Z.of_int E) as E';
      rewrite DecimalZ.of_to in E'; simpl in E'; subst z; discriminate E. }
  apply DecimalZ.to_int_inj.
  pose proof (NilZero.isi (Z.to_int n) (proj1 (Hnz n)) (proj2 (Hnz n))) as Hn.
  pose proof (NilZero.isi (Z.to_int m) (proj1 (Hnz m)) (proj2 (Hnz m))) as Hm.
  rewrite H in Hn. congruence.
Qed.

Lemma numbered_msg_inj (pre post : string) (n m : Z) :
  pre ++ str_of_int n ++ post = pre ++ str_of_int m ++ post -> n = m.
Proof.
  intros H. apply append_inv_head, append_inv_tail in H.
  apply str_of_int_inj, H.
Qed.

(** X8: The number in a length message is the true length: a title message
    among the findings reports [len(title)], a description message
    [len(description)]. *)
Theorem messages_report_true_lengths
    (title description store : string) (n : Z) :
  let r := result title description store in
  (In (ios_title_msg n) (issues_of r) -> n = len title) /\
  (In (android_title_msg n) (warnings_of r) -> n = len title) /\
  (In (description_short_msg n) (warnings_of r) -> n = len description) /\
  (In (description_long_msg n) (issues_of r) -> n = len description).
Proof.
  cbn zeta. repeat split; intros H.
  - apply In_issues in H as [(_ & _ & E)|(_ & E)].
    + exact (numbered_msg_inj _ _ _ _ E).
    + exfalso. exact (ios_ne_long _ _ E).
  - apply In_warnings in H
      as [(_ & _ & E)|[(_ & E)|[(u & _ & _ & E)|(_ & E)]]].
    + exact (numbered_msg_inj _ _ _ _ E).
    + exfalso. exact (android_ne_repeated _ E).
    + exfalso. exact (android_ne_discouraged _ _ E).
    + exfalso. exact (android_ne_short _ _ E).
  - apply In_warnings in H
      as [(_ & _ & E)|[(_ & E)|[(u & _ & _ & E)|(_ & E)]]].
    + exfalso. symmetry in E. exact (android_ne_short _ _ E).
    + exfalso. symmetry in E. exact (repeated_ne_short _ E).
    + exfalso. symmetry in E. exact (discouraged_ne_short _ _ E).
    + exact (numbered_msg_inj _ _ _ _ E).
  - apply In_issues in H as [(_ & _ & E)|(_ & E)].
    + exfalso. symmetry in E. exact (ios_ne_long _ _ E).
    + exact (numbered_msg_inj _ _ _ _ E).
Qed.

Lemma messages_report_true_lengths_witness :
  In (ios_title_msg 31)
     (issues_of (result (replicate_char 31 "a") "A short text" "ios")) /\
  31 = len (replicate_char 31 "a").
Proof.
  assert (In (ios_title_msg 31)
             (issues_of (result (replicate_char 31 "a") "A short text" "ios")))
    as H by (vm_compute; left; reflexivity).
  split; [exact H|].
  exact (proj1 (messages_report_true_lengths
                  (replicate_char 31 "a") "A short text" "ios" 31) H).
Defined.

Lemma append_empty_r (s : string) : s ++ EmptyString = s.
Proof. induction s as [|c s IH]; str_simpl; congruence. Qed.

Lemma append_assoc (a b c : string) : (a ++ b) ++ c = a ++ (b ++ c).
Proof. induction a as [|x a IH]; str_simpl; congruence. Qed.

Lemma isspace_lower_char (c : ascii) : isspace (lower_char c) = isspace c.
Proof. destruct c as [[] [] [] [] [] [] [] []]; reflexivity. Qed.

Lemma all_chars_lower (p : ascii -> bool) (s : string) :
  (forall c, p (lower_char c) = p c) ->
  all_chars p (lower s) = all_chars p s.
Proof.
  intros Hp. induction s as [|c s IH]; simpl; [reflexivity|].
  rewrite Hp, IH. reflexivity.
Qed.

(** Text without whitespace is one word, or none if it is empty. *)
Lemma split_from_no_space (s cur : string) :
  all_chars (fun c => negb (isspace c)) s = true ->
  split_from cur s
  = if String.eqb (cur ++ s) EmptyString then [] else [cur ++ s].
Proof.
  revert cur. induction s as [|c s IH]; intros cur H; simpl.
  - rewrite append_empty_r. reflexivity.
  - simpl in H. apply andb_true_iff in H as [Hc Hs].
    apply negb_true_iff in Hc. rewrite Hc, (IH _ Hs), append_assoc.
    reflexivity.
Qed.

(** Text made of whitespace only has no word. *)
Lemma split_from_all_space (s : string) :
  all_chars isspace s = true -> split_from EmptyString s = [].
Proof.
  induction s as [|c s IH]; intros H; simpl; [reflexivity|].
  simpl in H. apply andb_true_iff in H as [Hc Hs]. rewrite Hc. simpl.
  exact (IH Hs).
Qed.

(** X9: A title without whitespace, or made of whitespace only, has at most
    one word and never gets the keyword-stuffing warning. *)
Theorem single_word_title_is_not_stuffed (title description store : string) :
  all_chars (fun c => negb (isspace c)) title = true \/
  all_chars isspace title = true ->
  (List.length (split (lower title)) <= 1)%nat /\
  ~ In repeated_words_msg (warnings_of (result title description store)).
Proof.
  intros H.
  assert (List.length (split (lower title)) <= 1)%nat as Hlen.
  { unfold split. destruct H as [H|H].
    - rewrite split_from_no_space.
      + destruct (String.eqb _ _); simpl; lia.
      + rewrite all_chars_lower; [exact H|].
        intros c. rewrite isspace_lower_char. reflexivity.
    - rewrite split_from_all_space; [simpl; lia|].
      rewrite all_chars_lower; [exact H | apply isspace_lower_char]. }
  split; [exact Hlen|]. intros Hin.
  apply In_warnings in Hin
    as [(_ & _ & E)|[(Hnd & _)|[(u & _ & _ & E)|(_ & E)]]].
  - symmetry in E. exact (android_ne_repeated _ E).
  - apply Hnd. destruct (split (lower title)) as [|w [|w' l]].
    + constructor.
    + apply NoDup_singleton.
    + simpl in Hlen. lia.
  - exact (repeated_ne_discouraged _ E).
  - exact (repeated_ne_short _ E).
Qed.

Lemma single_word_title_is_not_stuffed_witness :
  all_chars (fun c => negb (isspace c)) "BestBestBest" = true /\
  ~ In repeated_words_msg
      (warnings_of (result "BestBestBest" "A short text" "both")).
Proof.
  assert (all_chars (fun c => negb (isspace c)) "BestBestBest" = true) as H
    by reflexivity.
  split; [exact H|].
  exact (proj2 (single_word_title_is_not_stuffed
                  "BestBestBest" "A short text" "both" (or_introl H))).
Defined.

Lemma NoDup_map_inj {A B} (f : A -> B) (l : list A) :
  (forall x y, f x = f y -> x = y) -> NoDup l -> NoDup (List.map f l).
Proof.
  intros Hf. induction 1 as [|x l Hx Hl IH]; simpl; constructor.
  - rewrite list_elem_of_In, in_map_iff. intros (y & E & Hy).
    apply Hf in E. subst y. apply Hx, list_elem_of_In, Hy.
  - exact IH.
Qed.

Lemma NoDup_List_filter {A} (f : A -> bool) (l : list A) :
  NoDup l -> NoDup (List.filter f l).
Proof.
  induction 1 as [|x l Hx Hl IH]; simpl; [constructor|].
  destruct (f x); [|exact IH]. constructor; [|exact IH].
  rewrite list_elem_of_In, filter_In. intros [Hin _].
  apply Hx, list_elem_of_In, Hin.
Qed.

Lemma NoDup_when (b : bool) (m : string) : NoDup (if b then [m] else []).
Proof. destruct b; [apply NoDup_singleton | constructor]. Qed.

Lemma NoDup_prohibited : NoDup prohibited.
Proof.
  unfold prohibited.
  repeat constructor; rewrite ?list_elem_of_In; simpl; intuition discriminate.
Qed.

(** X10: No finding is reported twice: the issues have no duplicate, the
    warnings have none (a discouraged term that occurs several times in
    the title is named once), and no message is both an issue and a
    warning. *)
Theorem findings_are_not_repeated (title description store : string) :
  let r := result title description store in
  NoDup (issues_of r) /\
  NoDup (warnings_of r) /\
  (forall m, In m (issues_of r) -> ~ In m (warnings_of r)).
Proof.
  cbn zeta. split; [|split].
  - rewrite issues_of_result, check_issues. apply NoDup_app.
    split; [apply NoDup_when|]. split; [|apply NoDup_when].
    intros m. rewrite !list_elem_of_In, !In_when.
    intros (_ & <-) (_ & E). symmetry in E. exact (ios_ne_long _ _ E).
  - rewrite warnings_of_result, check_warnings.
    apply NoDup_app. split; [apply NoDup_when|]. split.
    + intros m. rewrite !list_elem_of_In, !in_app_iff, !In_when, in_map_iff.
      intros (_ & <-) [(_ & E)|[(u & E & _)|(_ & E)]]; revert E; msg_discr.
    + apply NoDup_app. split; [apply NoDup_when|]. split.
      * intros m. rewrite !list_elem_of_In, !in_app_iff, !In_when, in_map_iff.
        intros (_ & <-) [(u & E & _)|(_ & E)]; revert E; msg_discr.
      * apply NoDup_app. split; [|split; [|apply NoDup_when]].
        -- apply NoDup_map_inj; [exact discouraged_msg_inj|].
           apply NoDup_List_filter, NoDup_prohibited.
        -- intros m. rewrite !list_elem_of_In, !In_when, in_map_iff.
           intros (u & <- & _) (_ & E); revert E; msg_discr.
  - intros m Hi Hw. apply In_issues in Hi. apply In_warnings in Hw.
    destruct Hi as [(_ & _ & ->)|(_ & ->)];
      destruct Hw as [(_ & _ & E)|[(_ & E)|[(u & _ & _ & E)|(_ & E)]]];
      revert E; msg_discr.
Qed.

(** X11: A description of 200 to 4000 characters draws no finding at all,
    also when it is shorter than the 500 characters the short-description
    message recommends: within that range the issues, the warnings and
    the validity do not depend on the description. *)
Theorem description_in_range_is_silent (title d1 d2 store : string) :
  200 <= len d1 <= 4000 ->
  200 <= len d2 <= 4000 ->
  (forall n, ~ In (description_short_msg n)
                  (warnings_of (result title d1 store))) /\
  (forall n, ~ In (description_long_msg n)
                  (issues_of (result title d1 store))) /\
  issues_of (result title d1 store) = issues_of (result title d2 store) /\
  warnings_of (result title d1 store) = warnings_of (result title d2 store) /\
  valid_of (result title d1 store) = valid_of (result title d2 store).
Proof.
  intros H1 H2.
  assert ((len d1 <? 200) = false) as A1 by (apply Z.ltb_ge; lia).
  assert ((4000 <? len d1) = false) as B1 by (apply Z.ltb_ge; lia).
  assert ((len d2 <? 200) = false) as A2 by (apply Z.ltb_ge; lia).
  assert ((4000 <? len d2) = false) as B2 by (apply Z.ltb_ge; lia).
  split; [|split; [|split; [|split]]].
  - intros n H.
    apply In_warnings in H
      as [(_ & _ & E)|[(_ & E)|[(u & _ & _ & E)|(Hlt & _)]]]; [| | |lia];
      revert E; msg_discr.
  - intros n H. apply In_issues in H as [(_ & _ & E)|(Hlt & _)]; [|lia].
    revert E; msg_discr.
  - rewrite !issues_of_result, !check_issues, B1, B2. reflexivity.
  - rewrite !warnings_of_result, !check_warnings, A1, A2. reflexivity.
  - rewrite !valid_of_bool, B1, B2. reflexivity.
Qed.

Lemma description_in_range_is_silent_witness :
  let d300 := replicate_char 300 "x" in
  let d4000 := replicate_char 4000 "x" in
  (200 <= len d300 <= 4000) /\ (200 <= len d4000 <= 4000) /\
  warnings_of (result "Notes" d300 "both")
  = warnings_of (result "Notes" d4000 "both").
Proof.
  cbn zeta.
  assert (200 <= len (replicate_char 300 "x") <= 4000) as H1
    by (vm_compute; split; discriminate).
  assert (200 <= len (replicate_char 4000 "x") <= 4000) as H2
    by (vm_compute; split; discriminate).
  split; [exact H1|]. split; [exact H2|].
  pose proof (description_in_range_is_silent "Notes"
                (replicate_char 300 "x") (replicate_char 4000 "x") "both"
                H1 H2) as H.
  destruct H as (_ & _ & _ & H & _). exact H.
Defined.

(** X12: An empty title passes every title rule, whatever the store: the only
    findings left are those about the description. *)
Theorem empty_title_passes_title_rules (description store : string) :
  let r := result EmptyString description store in
  issues_of r = (if 4000 <? len description
                 then [description_long_msg (len description)] else []) /\
  warnings_of r = (if len description <? 200
                   then [description_short_msg (len description)] else []) /\
  Json.as_int (Json.get "title_length" r) = Some 0.
Proof.
  cbn zeta. rewrite issues_of_result, warnings_of_result,
    check_issues, check_warnings.
  change (len EmptyString) with 0. simpl (30 <? 0). simpl (50 <? 0).
  rewrite !andb_false_r. split; [reflexivity|]. split; reflexivity.
Qed.

Lemma In_discouraged_iff (title description store term : string) :
  In (discouraged_msg term) (warnings_of (result title description store))
  <-> In term prohibited /\ contains term (lower title) = true.
Proof.
  rewrite In_warnings. split.
  - intros [(_ & _ & E)|[(_ & E)|[(u & Hu & Hc & E)|(_ & E)]]].
    + exfalso. symmetry in E. exact (android_ne_discouraged _ _ E).
    + exfalso. symmetry in E. exact (repeated_ne_discouraged _ E).
    + apply discouraged_msg_inj in E as ->. auto.
    + exfalso. exact (discouraged_ne_short _ _ E).
  - intros [H1 H2]. right. right. left. exists term. auto.
Qed.

(** X13: Text added around a title never removes a discouraged-term warning:
    if a title gets the warning naming a term, so does every title that
    contains it, whatever the description and the store. *)
Theorem discouraged_warning_survives_extension
    (title description store before after description' store' term : string) :
  In (discouraged_msg term) (warnings_of (result title description store)) ->
  In (discouraged_msg term)
     (warnings_of (result (before ++ title ++ after) description' store')).
Proof.
  rewrite !In_discouraged_iff. intros [Hterm Hc]. split; [exact Hterm|].
  apply contains_spec in Hc as (a & b & E).
  apply contains_spec. rewrite !lower_app, E.
  exists (lower before ++ a), (b ++ lower after).
  rewrite !append_assoc. reflexivity.
Qed.

Lemma discouraged_warning_survives_extension_witness :
  In (discouraged_msg "best")
     (warnings_of (result "Best" "A short text" "ios")) /\
  In (discouraged_msg "best")
     (warnings_of (result ("The " ++ "Best" ++ "ow App") EmptyString "both")).
Proof.
  assert (In (discouraged_msg "best")
             (warnings_of (result "Best" "A short text" "ios"))) as H
    by (vm_compute; left; reflexivity).
  split; [exact H|].
  exact (discouraged_warning_survives_extension
           "Best" "A short text" "ios" "The " "ow App" EmptyString "both"
           "best" H).
Defined.

End ValidatorMore.

(** ** The output text *)
Module JsonFacts.
Import Py PyFacts Json Validator Checks.

Lemma plain_app (a b : string) : plain a -> plain b -> plain (a ++ b).
Proof.
  unfold plain. intros Ha Hb. induction a as [|c a IH]; str_simpl.
  - exact Hb.
  - apply andb_true_iff in Ha as [Hc Ha]. rewrite Hc. simpl. exact (IH Ha).
Qed.

Lemma plain_escape_char (c : ascii) : plain (escape_char c).
Proof. destruct c as [[] [] [] [] [] [] [] []]; reflexivity. Qed.

Lemma plain_escape (s : string) : plain (escape s).
Proof.
  induction s as [|c s IH]; simpl; [reflexivity|].
  apply plain_app; [apply plain_escape_char | exact IH].
Qed.

Lemma plain_quote (s : string) : plain (quote s).
Proof.
  unfold quote. apply plain_app; [reflexivity|].
  apply plain_app; [apply plain_escape | reflexivity].
Qed.

Lemma plain_string_of_uint (d : Decimal.uint) :
  plain (NilEmpty.string_of_uint d).
Proof. induction d; simpl; try reflexivity; exact IHd. Qed.

Lemma plain_str_of_int (n : Z) : plain (str_of_int n).
Proof.
  unfold str_of_int.
  assert (forall d, plain (NilZero.string_of_uint d)) as Hu.
  { intros d. destruct d; try reflexivity;
      apply (plain_string_of_uint (_ d)). }
  destruct (Z.to_int n) as [d|d]; simpl; [apply Hu|].
  change (plain (String "-" EmptyString ++ NilZero.string_of_uint d)).
  apply plain_app; [reflexivity | apply Hu].
Qed.

Lemma plain_spaces (n : nat) : plain (replicate_char n " ").
Proof. induction n as [|n IH]; simpl; [reflexivity | exact IH]. Qed.

Lemma plain_break (indent lvl : nat) : plain (break indent lvl).
Proof. unfold break. apply plain_app; [reflexivity | apply plain_spaces]. Qed.

Lemma plain_join (sep : string) (parts : list string) :
  plain sep -> Forall plain parts -> plain (join sep parts).
Proof.
  intros Hsep. induction 1 as [|p parts Hp Hparts IH]; simpl; [reflexivity|].
  destruct parts as [|q parts]; [exact Hp|].
  apply plain_app; [exact Hp|]. apply plain_app; [exact Hsep | exact IH].
Qed.

(** Whatever the value, its rendering holds only printable ASCII and line
    feeds. *)
Lemma plain_render (indent : nat) (v : json) :
  forall lvl, plain (render indent lvl v).
Proof.
  induction v as [b|n|s|items IH|fields IH] using json_nested_ind;
    intros lvl.
  - destruct b; reflexivity.
  - apply plain_str_of_int.
  - apply plain_quote.
  - destruct items as [|x items]; [reflexivity|].
    change (plain ("[" ++ break indent (S lvl)
                   ++ join ("," ++ break indent (S lvl))
                        (List.map (render indent (S lvl)) (x :: items))
                   ++ break indent lvl ++ "]")).
    apply plain_app; [reflexivity|]. apply plain_app; [apply plain_break|].
    apply plain_app; [|apply plain_app; [apply plain_break | reflexivity]].
    apply plain_join; [apply plain_app; [reflexivity | apply plain_break]|].
    induction IH as [|y l Hy Hl IHl]; simpl; constructor; auto.
  - destruct fields as [|kv fields]; [reflexivity|].
    change (plain ("{" ++ break indent (S lvl)
                   ++ join ("," ++ break indent (S lvl))
                        (List.map (fun kv => quote (fst kv) ++ ": "
                                     ++ render indent (S lvl) (snd kv))
                                  (kv :: fields))
                   ++ break indent lvl ++ "}")).
    apply plain_app; [reflexivity|]. apply plain_app; [apply plain_break|].
    apply plain_app; [|apply plain_app; [apply plain_break | reflexivity]].
    apply plain_join; [apply plain_app; [reflexivity | apply plain_break]|].
    induction IH as [|y l Hy Hl IHl]; simpl; constructor; auto.
    apply plain_app; [apply plain_quote|].
    apply plain_app; [reflexivity | apply Hy].
Qed.

(** X14: The text the validator returns holds only printable ASCII characters
    and line feeds, whatever characters the title and the description
    hold. *)
Theorem output_is_plain_ascii (title description store : string) :
  all_chars plain_char (validate_app_store_content title description store)
  = true.
Proof. apply plain_render. Qed.

End JsonFacts.

(** ** Further properties of the pipeline *)
Module PipelineMore.
Import Py Pipeline Checks.

(** X15: Every output key is read: each key a stage writes is referred to by
    the instruction of some later stage, and the last stage, the
    aggregator, refers to exactly the keys written, in the order they are
    written. *)
Theorem every_output_is_read :
  let stages := sub_agents root_agent in
  (forall i a k,
      stages !! i = Some a -> output_key a = Some k ->
      In k (keys_read_after stages i)) /\
  last stages = Some aggregator_agent /\
  placeholders (instruction aggregator_agent) = omap output_key stages.
Proof.
  cbn zeta. split; [|split; [reflexivity | vm_compute; reflexivity]].
  intros i a k Hi Hk.
  destruct i as [|[|[|[|i]]]]; simpl in Hi; try discriminate;
    injection Hi as <-; simpl in Hk; try discriminate;
    injection Hk as <-; vm_compute; tauto.
Qed.

Lemma every_output_is_read_witness :
  In "content_variants" (keys_read_after (sub_agents root_agent) 2).
Proof.
  pose proof every_output_is_read as H. cbn zeta in H.
  destruct H as (H & _).
  apply (H 2%nat content_writer_agent "content_variants"); reflexivity.
Defined.

(** X16: An instruction names a tool exactly when the stage has it: the two
    research stages have the search tool only, the content writer has the
    validator only, and the aggregator has no tool. *)
Theorem instructions_name_the_tools_given :
  let stages := sub_agents root_agent in
  (forall a t, In a stages ->
      (In t (tools a) <-> contains (tool_name t) (instruction a) = true)) /\
  List.map tools stages
  = [[google_search]; [google_search]; [validate_app_store_content]; []].
Proof.
  cbn zeta. split; [|reflexivity].
  intros a t Ha. simpl in Ha.
  destruct Ha as [<-|[<-|[<-|[<-|[]]]]]; destruct t;
    (split; [intros Hin; vm_compute; vm_compute in Hin
            | intros Hc; vm_compute in Hc; vm_compute]);
    try reflexivity; try discriminate; try tauto;
    try (destruct Hin as [E|Hin]; [discriminate E | destruct Hin]);
    try destruct Hin.
Qed.

Lemma instructions_name_the_tools_given_witness :
  contains "validate_app_store_content" (instruction content_writer_agent)
  = true.
Proof.
  pose proof instructions_name_the_tools_given as H. cbn zeta in H.
  destruct H as (H & _).
  apply (H content_writer_agent validate_app_store_content).
  - simpl. tauto.
  - simpl. tauto.
Defined.

End PipelineMore.
